(** * BrowserBaba-admin: the Cloudinary relay of [server.js]

    A shallow embedding of the three Express route handlers of [server.js]
    ([POST /upload], [DELETE /delete/:public_id], [GET /images]) and the
    properties of the relay that follow from them.

    The handlers are JavaScript [async] functions with a [try]/[catch]
    around one call into the Cloudinary SDK. They are embedded as
    computations in a state-and-exception monad [Js]:
    - the state is the part of the process a handler can touch: the staged
      files under [uploads/], the [console.error] log, the calls sent to the
      provider, and the Express response object [res];
    - an exception is a thrown JavaScript value.
    The provider itself is outside the repository; it is a parameter
    ([Provider]) that answers each remote call with a resolved value or a
    rejection. The handlers share no variable and each makes one remote
    call, so a request is followed on its own from its first statement to
    its last. *)

From Stdlib Require Import ZArith.
From stdpp Require Import gmap strings list.

Set Warnings "-register-all".
Local Open Scope Z_scope.

(** ** JavaScript values *)

(** The data the handlers see: JSON data from the provider, plus
    [undefined]. Objects are finite maps from property names to values.
    Numbers are copied or tested for truthiness, never computed with; the
    numbers in the provider's resource descriptions ([width], [height],
    [bytes], ...) and the page size are integers. *)
Inductive JsValue : Type :=
| JUndefined
| JNull
| JBool (b : bool)
| JNumber (n : Z)
| JString (s : string)
| JArray (items : list JsValue)
| JObject (fields : gmap string JsValue).

(** An object literal [{ k1: v1, ..., kn: vn }]. *)
Definition obj (kvs : list (string * JsValue)) : JsValue :=
  JObject (list_to_map kvs).

(** [ToBoolean]: what [!v] and [v || w] test. *)
Definition truthy (v : JsValue) : bool :=
  match v with
  | JUndefined | JNull => false
  | JBool b => b
  | JNumber n => negb (Z.eqb n 0)
  | JString s => negb (String.eqb s "")
  | JArray _ | JObject _ => true
  end.

(** [v || w]. *)
Definition js_or (v w : JsValue) : JsValue :=
  if truthy v then v else w.

Definition nullish (v : JsValue) : bool :=
  match v with
  | JUndefined | JNull => true
  | _ => false
  end.

(** The name V8 prints for a nullish value in its [TypeError] text. *)
Definition nullish_name (v : JsValue) : string :=
  match v with
  | JNull => "null"
  | _ => "undefined"
  end.

(** A [TypeError] raised by the engine, as the object a [catch] receives. *)
Definition TypeError (message : string) : JsValue :=
  obj [("name", JString "TypeError"); ("message", JString message)].

(** ** The process state and the monad *)

(** A call into the Cloudinary SDK, with the arguments the handler passes. *)
Inductive RemoteCall : Type :=
| UploaderUpload (path : string) (options : JsValue)
| UploaderDestroy (public_id : JsValue)
| ApiResources (options : JsValue).

Record World : Type := mkWorld {
  (** files that exist on disk (multer stages uploads under [uploads/]) *)
  files : gset string;
  (** files that [fs.unlink] cannot remove (EPERM, EBUSY, ...) *)
  undeletable : gset string;
  (** values written with [console.error], oldest first *)
  console : list JsValue;
  (** calls sent to the provider, oldest first *)
  calls : list RemoteCall;
  (** [res.statusCode]; Express starts every response at 200 *)
  statusCode : Z;
  (** the value handed to [res.json], once the response is sent *)
  sent : option JsValue
}.

(** How a JavaScript computation ends: normally with a value, or by
    throwing one. A rejected promise under [await] is a [Throw]. *)
Inductive Completion (A : Type) : Type :=
| Normal (a : A)
| Throw (e : JsValue).
Arguments Normal {A} a.
Arguments Throw {A} e.

Definition Js (A : Type) : Type := World → Completion A * World.

#[export] Instance Js_ret : MRet Js :=
  λ A a w, (Normal a, w).

#[export] Instance Js_bind : MBind Js :=
  λ A B k m w,
    match m w with
    | (Normal a, w') => k a w'
    | (Throw e, w') => (Throw e, w')
    end.

Definition throw {A : Type} (e : JsValue) : Js A :=
  λ w, (Throw e, w).

(** [try { body } catch (err) { handler }]. *)
Definition try_catch {A : Type} (body : Js A) (handler : JsValue → Js A) : Js A :=
  λ w,
    match body w with
    | (Normal a, w') => (Normal a, w')
    | (Throw e, w') => handler e w'
    end.

(** [await p.catch(() => {})]: a rejection of [p] is dropped. *)
Definition catch_ignore (p : Js unit) : Js unit :=
  try_catch p (λ _, mret tt).

(** [Array.prototype.map] runs the callback on the items in order and stops
    at the first one that throws. *)
Fixpoint map_items (f : JsValue → Js JsValue) (items : list JsValue) : Js (list JsValue) :=
  match items with
  | [] => mret []
  | r :: rest =>
      y ← f r;
      ys ← map_items f rest;
      mret (y :: ys)
  end.

(** ** Primitive operations *)

(** The value of [v.k] when [v] is not nullish, for the property names
    [server.js] reads ([secure_url], [public_id], [width], [height],
    [format], [created_at], [resources], [message]). None of them is
    [length], an index or a name found on a built-in prototype, so only an
    object can hold one; on arrays and primitives the read is [undefined]. *)
Definition own_prop (v : JsValue) (k : string) : JsValue :=
  match v with
  | JObject fields => default JUndefined (fields !! k)
  | _ => JUndefined
  end.

(** [v.k]: reading a property of [null] or [undefined] throws. *)
Definition get_prop (v : JsValue) (k : string) : Js JsValue :=
  if nullish v then
    throw (TypeError ("Cannot read properties of " +:+ nullish_name v
                        +:+ " (reading '" +:+ k +:+ "')"))
  else mret (own_prop v k).

(** [v.map(f)]: only arrays have the method; the provider's data holds no
    functions, so on anything else the call is a [TypeError]. *)
Definition call_map (v : JsValue) (f : JsValue → Js JsValue) : Js JsValue :=
  match v with
  | JArray items => ys ← map_items f items; mret (JArray ys)
  | JUndefined | JNull =>
      throw (TypeError ("Cannot read properties of " +:+ nullish_name v
                          +:+ " (reading 'map')"))
  | _ => throw (TypeError "(response.resources || []).map is not a function")
  end.

(** [console.error(v)]. *)
Definition console_error (v : JsValue) : Js unit :=
  λ w, (Normal tt,
        mkWorld (files w) (undeletable w) (console w ++ [v]) (calls w)
                (statusCode w) (sent w)).

(** [res.status(code)]. *)
Definition res_status (code : Z) : Js unit :=
  λ w, (Normal tt,
        mkWorld (files w) (undeletable w) (console w) (calls w) code (sent w)).

(** [res.json(body)]: the response goes out with the current status. *)
Definition res_json (body : JsValue) : Js unit :=
  λ w, (Normal tt,
        mkWorld (files w) (undeletable w) (console w) (calls w)
                (statusCode w) (Some body)).

(** A rejection of [fs.unlink], as the [Error] object Node builds. *)
Definition unlink_error (code path : string) : JsValue :=
  obj [("code", JString code); ("syscall", JString "unlink");
       ("path", JString path);
       ("message", JString (code +:+ ": unlink '" +:+ path +:+ "'"))].

(** [await fs.unlink(path)]. *)
Definition fs_unlink (path : string) : Js unit :=
  λ w,
    if decide (path ∈ files w) then
      if decide (path ∈ undeletable w) then
        (Throw (unlink_error "EPERM" path), w)
      else
        (Normal tt,
         mkWorld (files w ∖ {[path]}) (undeletable w) (console w) (calls w)
                 (statusCode w) (sent w))
    else (Throw (unlink_error "ENOENT" path), w).

(** ** Configuration and requests *)

(** The provider: how the Cloudinary service answers a call, given the
    call and the state of the process when it is made. [Normal v] is a
    promise resolved with [v], [Throw e] one rejected with [e]. *)
Definition Provider : Type := RemoteCall → World → Completion JsValue.

(** [await cloudinary.<api>(...)]: the call is sent and its outcome is the
    outcome of the [await]. *)
Definition remote (cloudinary : Provider) (c : RemoteCall) : Js JsValue :=
  λ w, (cloudinary c w,
        mkWorld (files w) (undeletable w) (console w) (calls w ++ [c])
                (statusCode w) (sent w)).

(** [process.env.NAME || fallback]: an unset and an empty variable both
    give the fallback. *)
Definition env_or (env : gmap string string) (name fallback : string) : string :=
  match env !! name with
  | Some s => if String.eqb s "" then fallback else s
  | None => fallback
  end.

(** [const FOLDER = process.env.FOLDER_NAME || "portfolio-gallery"]. *)
Definition FOLDER (env : gmap string string) : string :=
  env_or env "FOLDER_NAME" "portfolio-gallery".

(** [req.file], as multer's [upload.single("image")] leaves it: the staged
    copy of the [image] part. *)
Record File : Type := mkFile {
  path : string
}.

(** The parts of [req] the handlers read. [file] is [None] when the form
    had no [image] part ([req.file] is [undefined]). *)
Record Request : Type := mkRequest {
  file : option File;
  params : gmap string string
}.

(** [req.params.name]. *)
Definition param (req : Request) (name : string) : JsValue :=
  match params req !! name with
  | Some s => JString s
  | None => JUndefined
  end.

(** ** The route handlers *)

Inductive Route : Type := PostUpload | DeleteDelete | GetImages.

Section Handlers.

Variable env : gmap string string.
Variable cloudinary : Provider.

(** The options of the upload call. *)
Definition upload_options : JsValue :=
  obj [("folder", JString (FOLDER env));
       ("use_filename", JBool true);
       ("unique_filename", JBool true);
       ("overwrite", JBool false)].

(** The [catch] block, the same in the three handlers:
    [console.error(err); res.status(500).json({ error: err.message })].
    [res.status(500)] is evaluated before the argument of [.json]. *)
Definition on_error (err : JsValue) : Js unit :=
  console_error err;;
  res_status 500;;
  message ← get_prop err "message";
  res_json (obj [("error", message)]).

(** [app.post("/upload", upload.single("image"), async (req, res) => ...)]. *)
Definition post_upload (req : Request) : Js unit :=
  try_catch
    (match file req with
     | None =>
         res_status 400;;
         res_json (obj [("error", JString "No file")])
     | Some f =>
         result ← remote cloudinary (UploaderUpload (path f) upload_options);
         catch_ignore (fs_unlink (path f));;
         secure_url ← get_prop result "secure_url";
         public_id ← get_prop result "public_id";
         res_json (obj [("url", secure_url); ("public_id", public_id)])
     end)
    on_error.

(** [app.delete("/delete/:public_id", async (req, res) => ...)]. *)
Definition delete_delete (req : Request) : Js unit :=
  try_catch
    (let publicId := param req "public_id" in
     result ← remote cloudinary (UploaderDestroy publicId);
     res_json (obj [("result", result)]))
    on_error.

(** The options of the list call. *)
Definition resources_options : JsValue :=
  obj [("type", JString "upload");
       ("prefix", JString (FOLDER env +:+ "/"));
       ("max_results", JNumber 200)].

(** The callback of [.map] in the list handler. *)
Definition summary (r : JsValue) : Js JsValue :=
  secure_url ← get_prop r "secure_url";
  public_id ← get_prop r "public_id";
  width ← get_prop r "width";
  height ← get_prop r "height";
  format ← get_prop r "format";
  created_at ← get_prop r "created_at";
  mret (obj [("url", secure_url);
             ("public_id", public_id);
             ("width", width);
             ("height", height);
             ("format", format);
             ("created_at", created_at)]).

(** [app.get("/images", async (req, res) => ...)]. *)
Definition get_images (req : Request) : Js unit :=
  try_catch
    (response ← remote cloudinary (ApiResources resources_options);
     resources ← get_prop response "resources";
     images ← call_map (js_or resources (JArray [])) summary;
     res_json images)
    on_error.

Definition handler (route : Route) : Request → Js unit :=
  match route with
  | PostUpload => post_upload
  | DeleteDelete => delete_delete
  | GetImages => get_images
  end.

(** Express hands every request a response object of its own, with
    status 200 and nothing sent. *)
Definition fresh_res (w : World) : World :=
  mkWorld (files w) (undeletable w) (console w) (calls w) 200 None.

(** One request served in process state [w]: the state afterwards. An
    exception that escapes the handler leaves the promise rejected; the
    state it left behind is still the state of the process. *)
Definition serve (route : Route) (req : Request) (w : World) : World :=
  snd (handler route req (fresh_res w)).

End Handlers.

(** The response a handler sent, if it sent one: the status and the value
    it handed to [res.json]. *)
Definition response (w : World) : option (Z * JsValue) :=
  match sent w with
  | Some body => Some (statusCode w, body)
  | None => None
  end.

(** The calls a request added to the log [before]. *)
Definition calls_since (before after : World) : list RemoteCall :=
  drop (length (calls before)) (calls after).

(** ** Vocabulary of the properties *)

(** The page of resources the list handler maps over:
    [response.resources || []]. *)
Definition first_page (response : JsValue) : JsValue :=
  js_or (own_prop response "resources") (JArray []).

(** [image] has the six fields of an asset summary and no other, each read
    from the provider's resource [r]; [url] is the resource's secure URL. *)
Definition is_summary_of (r image : JsValue) : Prop :=
  ∃ fields : gmap string JsValue,
    image = JObject fields ∧
    dom fields = {["url"; "public_id"; "width"; "height"; "format"; "created_at"]} ∧
    fields !! "url" = Some (own_prop r "secure_url") ∧
    fields !! "public_id" = Some (own_prop r "public_id") ∧
    fields !! "width" = Some (own_prop r "width") ∧
    fields !! "height" = Some (own_prop r "height") ∧
    fields !! "format" = Some (own_prop r "format") ∧
    fields !! "created_at" = Some (own_prop r "created_at").

(** The provider keeps to the page size it is asked for: a list response
    never holds more resources than the call's [max_results]. *)
Definition honours_max_results (cloudinary : Provider) : Prop :=
  ∀ options w response (n : Z) page,
    cloudinary (ApiResources options) w = Normal response →
    own_prop options "max_results" = JNumber n →
    first_page response = JArray page →
    (length page ≤ Z.to_nat n)%nat.

(** The process state right after the first remote call of a request
    served in state [w] went out: the call is logged, the response is still
    fresh. *)
Definition called (c : RemoteCall) (w : World) : World :=
  mkWorld (files w) (undeletable w) (console w) (calls w ++ [c]) 200 None.

(** The [try] block of the list handler, on its own. *)
Definition listing (env : gmap string string) (cloudinary : Provider) : Js unit :=
  response ← remote cloudinary (ApiResources (resources_options env));
  resources ← get_prop response "resources";
  images ← call_map (js_or resources (JArray [])) summary;
  res_json images.

(** The remote call a handler starts with, if it makes one: the upload
    handler makes none without a file. *)
Definition remote_call (env : gmap string string) (route : Route) (req : Request)
  : option RemoteCall :=
  match route with
  | PostUpload =>
      match file req with
      | Some f => Some (UploaderUpload (path f) (upload_options env))
      | None => None
      end
  | DeleteDelete => Some (UploaderDestroy (param req "public_id"))
  | GetImages => Some (ApiResources (resources_options env))
  end.

(** ** Sample requests, process states and providers *)

Definition staged_path : string := "uploads/9b1c6e0f4a7d".

(** A process with the given files on disk, all removable, and empty logs. *)
Definition idle (on_disk : gset string) : World :=
  mkWorld on_disk ∅ [] [] 200 None.

Definition with_image : Request := mkRequest (Some (mkFile staged_path)) ∅.
Definition without_image : Request := mkRequest None ∅.
Definition delete_of (id : string) : Request :=
  mkRequest None {["public_id" := id]}.

(** A request that fits any of the three routes. *)
Definition any_request : Request :=
  mkRequest (Some (mkFile staged_path)) {["public_id" := "portfolio-gallery/a"]}.

Definition timeout_error : JsValue :=
  obj [("name", JString "TimeoutError");
       ("message", JString "Request Timeout");
       ("http_code", JNumber 499)].

(** A provider that cannot be reached: every call is rejected. *)
Definition unreachable : Provider := λ _ _, Throw timeout_error.

(** The description of an asset, with more fields than a summary keeps. *)
Definition asset (public_id : string) (side : Z) : JsValue :=
  obj [("asset_id", JString ("a-" +:+ public_id));
       ("public_id", JString public_id);
       ("format", JString "png");
       ("version", JNumber 1730000000);
       ("resource_type", JString "image");
       ("type", JString "upload");
       ("created_at", JString "2024-10-27T03:33:20Z");
       ("bytes", JNumber (side * side * 4));
       ("width", JNumber side);
       ("height", JNumber side);
       ("url", JString ("http://res.cloudinary.com/demo/" +:+ public_id +:+ ".png"));
       ("secure_url", JString ("https://res.cloudinary.com/demo/" +:+ public_id +:+ ".png"))].

Definition has_public_id (id : JsValue) (a : JsValue) : bool :=
  match id, own_prop a "public_id" with
  | JString x, JString y => String.eqb x y
  | _, _ => false
  end.

(** A provider account holding [assets]: uploads are stored under the
    requested folder, a destroy reports whether the identifier was there,
    and a listing is cut at [max_results] with a cursor for the rest. *)
Definition account (assets : list JsValue) : Provider :=
  λ c _,
    match c with
    | UploaderUpload _ options =>
        match own_prop options "folder" with
        | JString folder => Normal (asset (folder +:+ "/image_x7k2p9") 10)
        | _ => Normal (asset "image_x7k2p9" 10)
        end
    | UploaderDestroy id =>
        Normal (JString (if existsb (has_public_id id) assets
                         then "ok" else "not found"))
    | ApiResources options =>
        match own_prop options "max_results" with
        | JNumber n =>
            let page := take (Z.to_nat n) assets in
            if decide (length assets ≤ Z.to_nat n)%nat
            then Normal (obj [("resources", JArray page)])
            else Normal (obj [("resources", JArray page);
                              ("next_cursor", JString "8c452e112d4c88ac7c9ffb3a2a41c41bef24")])
        | _ => Normal (obj [("resources", JArray (take 10 assets))])
        end
    end.

(** An account with more assets than one page of the list handler. *)
Definition crowded : list JsValue :=
  replicate 250 (asset "portfolio-gallery/tile" 10).

(** A provider that resolves every call with [v]. *)
Definition resolving (v : JsValue) : Provider := λ _ _, Normal v.

(** A provider that rejects every call with [e]. *)
Definition rejecting (e : JsValue) : Provider := λ _ _, Throw e.

(** Modelled from the spec: the provider's contract for destroy-asset,
    [destroy-asset(public_id) → {result}]. The outcome indicator of a
    resolved value is the string it holds under [result] (["ok"],
    ["not found"]). *)
Definition outcome_indicator (resolved : JsValue) : JsValue :=
  own_prop resolved "result".

(** [v] describes an asset under [scope]: its [public_id] is a string that
    starts with [scope]. *)
Definition public_id_under (scope : string) (v : JsValue) : Prop :=
  ∃ id, own_prop v "public_id" = JString id ∧ String.prefix scope id = true.

(** The provider stores an upload in the folder it is asked for: the
    result of a create-asset call with [folder: f] names an asset under
    [f/]. *)
Definition honours_folder (cloudinary : Provider) : Prop :=
  ∀ staged options w result folder,
    cloudinary (UploaderUpload staged options) w = Normal result →
    own_prop options "folder" = JString folder →
    public_id_under (folder +:+ "/") result.

(** The provider filters a listing on the prefix it is asked for: every
    resource in the response to a list call with [prefix: p] is under
    [p]. *)
Definition honours_prefix (cloudinary : Provider) : Prop :=
  ∀ options w response prefix page,
    cloudinary (ApiResources options) w = Normal response →
    own_prop options "prefix" = JString prefix →
    first_page response = JArray page →
    Forall (public_id_under prefix) page.

Definition in_scope (prefix : string) (a : JsValue) : bool :=
  match own_prop a "public_id" with
  | JString id => String.prefix prefix id
  | _ => false
  end.

(** A provider account holding [assets], answering in the shapes of the
    provider's contract: an upload is stored under the requested folder, a
    destroy resolves with [{ result }], and a listing holds the assets
    under the requested prefix, cut at [max_results]. *)
Definition media_library (assets : list JsValue) : Provider :=
  λ c _,
    match c with
    | UploaderUpload _ options =>
        match own_prop options "folder" with
        | JString folder => Normal (asset (folder +:+ "/image_x7k2p9") 10)
        | _ => Normal (asset "image_x7k2p9" 10)
        end
    | UploaderDestroy id =>
        Normal (obj [("result",
                      JString (if existsb (has_public_id id) assets
                               then "ok" else "not found"))])
    | ApiResources options =>
        let matching :=
          match own_prop options "prefix" with
          | JString prefix => List.filter (in_scope prefix) assets
          | _ => assets
          end in
        match own_prop options "max_results" with
        | JNumber n => Normal (obj [("resources", JArray (take (Z.to_nat n) matching))])
        | _ => Normal (obj [("resources", JArray (take 10 matching))])
        end
    end.

(** The rejection of a list call by the provider's admin API: the message
    sits under [error], not on the rejection itself. *)
Definition admin_api_error : JsValue :=
  obj [("error", obj [("message", JString "Invalid api_key 123456789");
                      ("http_code", JNumber 401)])].

(** * Properties *)

Arguments obj : simpl never.

(** ** Object literals *)

Lemma obj_singleton (k : string) (v : JsValue) :
  obj [(k, v)] = JObject {[k := v]}.
Proof. unfold obj. simpl. by rewrite insert_empty. Qed.

(** ** The monad and the primitives *)

Section Steps.

Context {A B : Type}.

Lemma bind_normal (m : Js A) (k : A → Js B) w a w' :
  m w = (Normal a, w') → (m ≫= k) w = k a w'.
Proof. intros H. unfold mbind, Js_bind. by rewrite H. Qed.

Lemma bind_throw (m : Js A) (k : A → Js B) w e w' :
  m w = (Throw e, w') → (m ≫= k) w = (Throw e, w').
Proof. intros H. unfold mbind, Js_bind. by rewrite H. Qed.

End Steps.

Lemma get_prop_value v k w :
  nullish v = false → get_prop v k w = (Normal (own_prop v k), w).
Proof. intros H. unfold get_prop. by rewrite H. Qed.

Lemma get_prop_nullish v k w :
  nullish v = true → ∃ e, get_prop v k w = (Throw e, w).
Proof. intros H. unfold get_prop. rewrite H. by eexists. Qed.

(** The [catch] block always leaves status 500, also when reading
    [err.message] throws. *)
Lemma on_error_status err w :
  statusCode (snd (on_error err w)) = 500.
Proof.
  unfold on_error, get_prop. cbv [mbind Js_bind console_error res_status].
  destruct (nullish err); reflexivity.
Qed.

Lemma on_error_value err w :
  nullish err = false →
  on_error err w =
    (Normal tt,
     mkWorld (files w) (undeletable w) (console w ++ [err]) (calls w) 500
             (Some (obj [("error", own_prop err "message")]))).
Proof.
  intros H. unfold on_error, get_prop. cbv [mbind Js_bind console_error res_status].
  rewrite H. reflexivity.
Qed.

(** A thrown [null] or [undefined] makes the [catch] block itself throw:
    the error is logged and no response goes out. *)
Lemma on_error_nullish err w :
  nullish err = true →
  ∃ e, on_error err w =
    (Throw e,
     mkWorld (files w) (undeletable w) (console w ++ [err]) (calls w) 500 (sent w)).
Proof.
  intros H. unfold on_error, get_prop. cbv [mbind Js_bind console_error res_status].
  rewrite H. by eexists.
Qed.

Lemma on_error_calls err w : calls (snd (on_error err w)) = calls w.
Proof.
  unfold on_error, get_prop. cbv [mbind Js_bind console_error res_status].
  destruct (nullish err); reflexivity.
Qed.

Lemma on_error_files err w : files (snd (on_error err w)) = files w.
Proof.
  unfold on_error, get_prop. cbv [mbind Js_bind console_error res_status].
  destruct (nullish err); reflexivity.
Qed.

(** [fs.unlink] under [.catch(() => {})] never throws and touches nothing
    but the file. *)
Lemma unlink_ignored p w :
  catch_ignore (fs_unlink p) w =
    (Normal tt,
     mkWorld (if decide (p ∈ undeletable w) then files w else files w ∖ {[p]})
             (undeletable w) (console w) (calls w) (statusCode w) (sent w)).
Proof.
  unfold catch_ignore, try_catch, fs_unlink.
  destruct w as [fs ud co ca st se]; simpl.
  destruct (decide (p ∈ fs)) as [Hin|Hout], (decide (p ∈ ud)); simpl; try reflexivity.
  do 2 f_equal. symmetry. apply difference_disjoint_L.
  by apply disjoint_singleton_r.
Qed.

(** ** The handlers, path by path *)

Section Paths.

Context (env : gmap string string) (cloudinary : Provider).

(** Whatever the route, a rejected remote call leads straight to the
    [catch] block. *)
Lemma serve_rejected route req w c e :
  remote_call env route req = Some c →
  cloudinary c (fresh_res w) = Throw e →
  serve env cloudinary route req w = snd (on_error e (called c w)).
Proof.
  intros Hc He. destruct route; simpl in Hc.
  - destruct (file req) as [f|] eqn:Hf; [|discriminate]. injection Hc as <-.
    cbv [serve handler post_upload try_catch mbind Js_bind remote].
    rewrite Hf, He. reflexivity.
  - injection Hc as <-.
    cbv [serve handler delete_delete try_catch mbind Js_bind remote].
    rewrite He. reflexivity.
  - injection Hc as <-.
    cbv [serve handler get_images try_catch mbind Js_bind remote].
    rewrite He. reflexivity.
Qed.

(** The upload handler once the provider has resolved the call: the
    staged file is unlinked first, then the result is read. *)
Lemma post_upload_resolved req w f result :
  file req = Some f →
  cloudinary (UploaderUpload (path f) (upload_options env)) (fresh_res w)
    = Normal result →
  let c := UploaderUpload (path f) (upload_options env) in
  let cleaned :=
    mkWorld (if decide (path f ∈ undeletable w) then files w
             else files w ∖ {[path f]})
            (undeletable w) (console w) (calls w ++ [c]) 200 None in
  serve env cloudinary PostUpload req w =
    if nullish result then
      snd (on_error
             (TypeError ("Cannot read properties of " +:+ nullish_name result
                           +:+ " (reading 'secure_url')"))
             cleaned)
    else
      mkWorld (files cleaned) (undeletable w) (console w) (calls w ++ [c]) 200
              (Some (obj [("url", own_prop result "secure_url");
                          ("public_id", own_prop result "public_id")])).
Proof.
  intros Hf Hr.
  cbv [serve handler post_upload try_catch mbind Js_bind remote].
  rewrite Hf, Hr. rewrite unlink_ignored. unfold get_prop.
  destruct (nullish result); reflexivity.
Qed.

(** The upload handler sends one call when there is a file, none
    otherwise, on every path. *)
Lemma post_upload_calls req w :
  calls (serve env cloudinary PostUpload req w) =
    calls w ++ match remote_call env PostUpload req with
               | Some c => [c]
               | None => []
               end.
Proof.
  simpl. destruct (file req) as [f|] eqn:Hf.
  - destruct (cloudinary (UploaderUpload (path f) (upload_options env)) (fresh_res w))
      as [result|e] eqn:Hr.
    + rewrite (post_upload_resolved _ _ _ _ Hf Hr).
      destruct (nullish result); [by rewrite on_error_calls | reflexivity].
    + erewrite serve_rejected; [|by simpl; rewrite Hf|done].
      by rewrite on_error_calls.
  - cbv [serve handler post_upload try_catch mbind Js_bind].
    rewrite Hf. simpl. by rewrite app_nil_r.
Qed.

(** The callback of the list handler on one resource. *)
Lemma summary_value r w :
  nullish r = false →
  ∃ image, summary r w = (Normal image, w) ∧ is_summary_of r image.
Proof.
  intros Hr. eexists. split.
  - unfold summary. cbv [mbind Js_bind]. rewrite !get_prop_value by done.
    reflexivity.
  - unfold obj. eexists. split; [reflexivity|]. simpl.
    split; [rewrite !dom_insert_L, dom_empty_L; set_solver|].
    repeat split; by simplify_map_eq.
Qed.

Lemma summary_nullish r w :
  nullish r = true → ∃ e, summary r w = (Throw e, w).
Proof.
  intros Hr. unfold summary. destruct (get_prop_nullish r "secure_url" w Hr) as [e He].
  exists e. by apply bind_throw.
Qed.

(** [.map] over a page: either every resource is summarised, in order,
    or the callback threw; the state is not touched. *)
Lemma map_items_summary page w :
  (∃ images, map_items summary page w = (Normal images, w) ∧
             Forall2 is_summary_of page images) ∨
  (∃ e, map_items summary page w = (Throw e, w)).
Proof.
  induction page as [|r page IH]; simpl.
  - left. exists []. split; [reflexivity | constructor].
  - destruct (nullish r) eqn:Hr.
    + right. destruct (summary_nullish r w Hr) as [e He].
      exists e. by apply bind_throw.
    + destruct (summary_value r w Hr) as (image & Hrun & Himage).
      rewrite (bind_normal _ _ _ _ _ Hrun).
      destruct IH as [(images & Hrest & Hall) | (e & Hrest)].
      * left. exists (image :: images). split; [|by constructor].
        by rewrite (bind_normal _ _ _ _ _ Hrest).
      * right. exists e. by apply bind_throw.
Qed.

Lemma remote_fresh c w :
  remote cloudinary c (fresh_res w) = (cloudinary c (fresh_res w), called c w).
Proof. reflexivity. Qed.

(** The [try] block of the list handler ends in one of two ways: the
    page was an array of summarisable resources and their summaries are
    sent, or something threw before anything was sent. *)
Lemma listing_outcome w :
  let c := ApiResources (resources_options env) in
  (∃ resp page images,
      cloudinary c (fresh_res w) = Normal resp ∧
      first_page resp = JArray page ∧
      Forall2 is_summary_of page images ∧
      listing env cloudinary (fresh_res w) =
        (Normal tt,
         mkWorld (files w) (undeletable w) (console w) (calls w ++ [c]) 200
                 (Some (JArray images)))) ∨
  (∃ e, listing env cloudinary (fresh_res w) = (Throw e, called c w)).
Proof.
  intros c. unfold listing. fold c.
  destruct (cloudinary c (fresh_res w)) as [resp|e] eqn:Hresp.
  2:{ right. exists e. apply bind_throw. by rewrite remote_fresh, Hresp. }
  erewrite bind_normal by (by rewrite remote_fresh, Hresp). cbv beta.
  destruct (nullish resp) eqn:Hnull.
  { right. destruct (get_prop_nullish resp "resources" (called c w) Hnull) as [e He].
    exists e. by apply bind_throw. }
  erewrite bind_normal by (by apply get_prop_value). cbv beta.
  fold (first_page resp).
  destruct (first_page resp) as [| |b|n|s|page|o] eqn:Hpage;
    try (right; eexists; apply bind_throw; reflexivity).
  unfold call_map.
  destruct (map_items_summary page (called c w))
    as [(images & Hrun & Hall)|(e & Hrun)].
  - left. exists resp, page, images. repeat split; try done.
    erewrite bind_normal by (by erewrite bind_normal by exact Hrun).
    reflexivity.
  - right. exists e. do 2 apply bind_throw. exact Hrun.
Qed.

Lemma get_images_listing req w :
  serve env cloudinary GetImages req w =
    match listing env cloudinary (fresh_res w) with
    | (Normal _, w') => w'
    | (Throw e, w') => snd (on_error e w')
    end.
Proof.
  unfold serve, handler, get_images, try_catch.
  fold (listing env cloudinary).
  by destruct (listing env cloudinary (fresh_res w)) as [[]].
Qed.

(** The list handler sends exactly one call, on every path. *)
Lemma get_images_calls req w :
  calls (serve env cloudinary GetImages req w) =
    calls w ++ [ApiResources (resources_options env)].
Proof.
  rewrite get_images_listing.
  destruct (listing_outcome w) as [(resp & page & images & _ & _ & _ & ->)|(e & ->)].
  - reflexivity.
  - by rewrite on_error_calls.
Qed.

(** A 200 from the list handler: the provider resolved the call, the
    page was an array, and the body is its summaries in order. *)
Lemma get_images_ok req w body :
  response (serve env cloudinary GetImages req w) = Some (200, body) →
  ∃ resp page images,
    cloudinary (ApiResources (resources_options env)) (fresh_res w)
      = Normal resp ∧
    first_page resp = JArray page ∧
    body = JArray images ∧
    Forall2 is_summary_of page images.
Proof.
  rewrite get_images_listing.
  destruct (listing_outcome w)
    as [(resp & page & images & Hresp & Hpage & Hall & ->)|(e & ->)].
  - intros [= <-]. by exists resp, page, images.
  - unfold response. destruct (sent _); [|discriminate].
    rewrite on_error_status. discriminate.
Qed.

End Paths.

(** ** The upload handler *)

(** C4. A [POST /upload] without a file part is answered with status 400
    and a body whose only field is [error]; no call is sent to the provider
    and nothing else in the process changes. *)
Theorem upload_without_file env cloudinary req w :
  file req = None →
  let w' := serve env cloudinary PostUpload req w in
  response w' = Some (400, JObject {["error" := JString "No file"]}) ∧
  calls w' = calls w ∧
  files w' = files w ∧
  console w' = console w.
Proof.
  intros Hf. cbv [serve handler post_upload try_catch mbind Js_bind].
  rewrite Hf. rewrite obj_singleton. by simpl.
Qed.

Lemma upload_without_file_witness :
  file without_image = None ∧
  let w' := serve ∅ unreachable PostUpload without_image (idle ∅) in
  response w' = Some (400, JObject {["error" := JString "No file"]}) ∧
  calls w' = calls (idle ∅) ∧
  files w' = files (idle ∅) ∧
  console w' = console (idle ∅).
Proof.
  split; [reflexivity|].
  apply (upload_without_file ∅ unreachable without_image (idle ∅)). reflexivity.
Defined.

(** C3. When the create-asset call resolves with a result, the answer to
    [POST /upload] is status 200 with a body of exactly two fields: [url],
    the result's [secure_url], and [public_id], the result's [public_id]. *)
Theorem upload_returns_url_and_public_id env cloudinary req w f result :
  file req = Some f →
  cloudinary (UploaderUpload (path f) (upload_options env)) (fresh_res w)
    = Normal result →
  nullish result = false →
  ∃ fields : gmap string JsValue,
    response (serve env cloudinary PostUpload req w) = Some (200, JObject fields) ∧
    dom fields = {["url"; "public_id"]} ∧
    fields !! "url" = Some (own_prop result "secure_url") ∧
    fields !! "public_id" = Some (own_prop result "public_id").
Proof.
  intros Hf Hr Hnull.
  rewrite (post_upload_resolved _ _ _ _ _ _ Hf Hr), Hnull.
  eexists. split; [reflexivity|]. simpl.
  split; [rewrite !dom_insert_L, dom_empty_L; set_solver|].
  split; by simplify_map_eq.
Qed.

Lemma upload_returns_url_and_public_id_witness :
  let result := asset "portfolio-gallery/image_x7k2p9" 10 in
  file with_image = Some (mkFile staged_path) ∧
  account [] (UploaderUpload staged_path (upload_options ∅))
             (fresh_res (idle {[staged_path]})) = Normal result ∧
  nullish result = false ∧
  ∃ fields : gmap string JsValue,
    response (serve ∅ (account []) PostUpload with_image (idle {[staged_path]}))
      = Some (200, JObject fields) ∧
    dom fields = {["url"; "public_id"]} ∧
    fields !! "url" = Some (own_prop result "secure_url") ∧
    fields !! "public_id" = Some (own_prop result "public_id").
Proof.
  split; [reflexivity|]. split; [reflexivity|]. split; [reflexivity|].
  apply (upload_returns_url_and_public_id ∅ (account []) with_image
           (idle {[staged_path]}) (mkFile staged_path)); reflexivity.
Defined.

(** C9. With a file, the upload handler sends exactly one call, a
    create-asset call for the staged path whose options are the folder and
    the three flags [use_filename: true], [unique_filename: true],
    [overwrite: false], and nothing else, however the call ends. *)
Theorem upload_call_flags env cloudinary req w f :
  file req = Some f →
  ∃ options : gmap string JsValue,
    calls (serve env cloudinary PostUpload req w)
      = calls w ++ [UploaderUpload (path f) (JObject options)] ∧
    dom options = {["folder"; "use_filename"; "unique_filename"; "overwrite"]} ∧
    options !! "folder" = Some (JString (FOLDER env)) ∧
    options !! "use_filename" = Some (JBool true) ∧
    options !! "unique_filename" = Some (JBool true) ∧
    options !! "overwrite" = Some (JBool false).
Proof.
  intros Hf. rewrite post_upload_calls. simpl. rewrite Hf.
  eexists. split; [reflexivity|]. simpl.
  split; [rewrite !dom_insert_L, dom_empty_L; set_solver|].
  repeat split; by simplify_map_eq.
Qed.

Lemma upload_call_flags_witness :
  file with_image = Some (mkFile staged_path) ∧
  ∃ options : gmap string JsValue,
    calls (serve ∅ unreachable PostUpload with_image (idle {[staged_path]}))
      = calls (idle {[staged_path]}) ++ [UploaderUpload staged_path (JObject options)] ∧
    dom options = {["folder"; "use_filename"; "unique_filename"; "overwrite"]} ∧
    options !! "folder" = Some (JString (FOLDER ∅)) ∧
    options !! "use_filename" = Some (JBool true) ∧
    options !! "unique_filename" = Some (JBool true) ∧
    options !! "overwrite" = Some (JBool false).
Proof.
  split; [reflexivity|].
  apply (upload_call_flags ∅ unreachable with_image (idle {[staged_path]})
           (mkFile staged_path)). reflexivity.
Defined.

(** On the success path the staged file is unlinked: it is gone afterwards
    unless the file system refuses to remove it, and a refusal changes
    nothing in the response. *)
Lemma upload_success_unlinks env cloudinary req w f result :
  file req = Some f →
  cloudinary (UploaderUpload (path f) (upload_options env)) (fresh_res w)
    = Normal result →
  let w' := serve env cloudinary PostUpload req w in
  (path f ∉ undeletable w → path f ∉ files w') ∧
  (path f ∈ undeletable w → files w' = files w) ∧
  console w' = match nullish result with
               | true => console w ++
                   [TypeError ("Cannot read properties of " +:+ nullish_name result
                                 +:+ " (reading 'secure_url')")]
               | false => console w
               end.
Proof.
  intros Hf Hr. cbv zeta.
  rewrite (post_upload_resolved _ _ _ _ _ _ Hf Hr).
  assert (path f ∉ files w ∖ {[path f]}) as Hgone.
  { rewrite elem_of_difference, elem_of_singleton. tauto. }
  destruct (nullish result) eqn:Hnull.
  - rewrite on_error_files, on_error_value by reflexivity. simpl.
    case_decide; repeat split; done.
  - simpl. case_decide; repeat split; done.
Qed.

(** On the failure path the [catch] block runs instead of the rest of the
    [try] block, and the [unlink] is in the [try] block: the files are
    what they were. *)
Lemma upload_rejected_keeps_files env cloudinary req w f e :
  file req = Some f →
  cloudinary (UploaderUpload (path f) (upload_options env)) (fresh_res w)
    = Throw e →
  files (serve env cloudinary PostUpload req w) = files w.
Proof.
  intros Hf He.
  erewrite serve_rejected; [|by simpl; rewrite Hf|exact He].
  by rewrite on_error_files.
Qed.

(** C1. The staged file survives a failed upload: with a file staged at
    [staged_path] and a provider that rejects the create-asset call, the
    client gets status 500 with the provider's message and the staged file
    is still on disk afterwards. *)
Theorem upload_failure_leaves_staged_file :
  let w' := serve ∅ unreachable PostUpload with_image (idle {[staged_path]}) in
  response w' = Some (500, JObject {["error" := JString "Request Timeout"]}) ∧
  calls w' = [UploaderUpload staged_path (upload_options ∅)] ∧
  files w' = {[staged_path]}.
Proof.
  cbv zeta. split; [|split].
  - vm_compute. reflexivity.
  - reflexivity.
  - vm_compute. reflexivity.
Qed.

(** ** The delete handler *)

(** C2. Whatever string the path carries as [public_id], the delete handler
    forwards it unchanged in one destroy-asset call, and when that call
    resolves the answer is status 200 with the body [{ result }], where
    [result] is the whole value the call resolved with, as the provider
    gave it. *)
Theorem delete_relays_outcome env cloudinary req w id outcome :
  params req !! "public_id" = Some id →
  cloudinary (UploaderDestroy (JString id)) (fresh_res w) = Normal outcome →
  let w' := serve env cloudinary DeleteDelete req w in
  response w' = Some (200, JObject {["result" := outcome]}) ∧
  calls w' = calls w ++ [UploaderDestroy (JString id)] ∧
  console w' = console w.
Proof.
  intros Hid Hout.
  cbv [serve handler delete_delete try_catch mbind Js_bind remote param].
  rewrite Hid, Hout, obj_singleton. by simpl.
Qed.

Lemma delete_relays_outcome_witness :
  let req := delete_of "no-such-asset" in
  let outcome := obj [("result", JString "not found")] in
  params req !! "public_id" = Some "no-such-asset" ∧
  media_library [] (UploaderDestroy (JString "no-such-asset")) (fresh_res (idle ∅))
    = Normal outcome ∧
  let w' := serve ∅ (media_library []) DeleteDelete req (idle ∅) in
  response w' = Some (200, JObject {["result" := outcome]}) ∧
  calls w' = calls (idle ∅) ++ [UploaderDestroy (JString "no-such-asset")] ∧
  console w' = console (idle ∅).
Proof.
  split; [reflexivity|]. split; [reflexivity|].
  apply (delete_relays_outcome ∅ (media_library []) (delete_of "no-such-asset")
           (idle ∅) "no-such-asset" (obj [("result", JString "not found")]));
    reflexivity.
Defined.

(** The value of [result] is not the provider's outcome indicator: the
    provider resolves the destroy-asset call with [{ result: "not found" }],
    and the handler wraps that object, so the body is
    [{ result: { result: "not found" } }] and not [{ result: "not found" }]. *)
Lemma delete_result_is_not_the_indicator :
  let resolved := obj [("result", JString "not found")] in
  let w' := serve ∅ (media_library []) DeleteDelete (delete_of "no-such-asset") (idle ∅) in
  media_library [] (UploaderDestroy (JString "no-such-asset")) (fresh_res (idle ∅))
    = Normal resolved ∧
  outcome_indicator resolved = JString "not found" ∧
  response w' = Some (200, JObject {["result" := resolved]}) ∧
  response w' ≠ Some (200, JObject {["result" := outcome_indicator resolved]}).
Proof.
  cbv zeta. split; [reflexivity|]. split; [reflexivity|].
  split; [vm_compute; reflexivity|].
  intros Hsame. vm_compute in Hsame. discriminate Hsame.
Qed.

(** ** The list handler *)

(** C5. A 200 from [GET /images] carries an array with one summary per
    resource of the provider's page, in the page's order; each summary has
    the six fields [url], [public_id], [width], [height], [format],
    [created_at] and no other, each read from its resource. *)
Theorem images_are_summaries env cloudinary req w body :
  response (serve env cloudinary GetImages req w) = Some (200, body) →
  ∃ resp page images,
    cloudinary (ApiResources (resources_options env)) (fresh_res w) = Normal resp ∧
    first_page resp = JArray page ∧
    body = JArray images ∧
    length images = length page ∧
    Forall2 is_summary_of page images.
Proof.
  intros Hok. destruct (get_images_ok _ _ _ _ _ Hok)
    as (resp & page & images & Hresp & Hpage & -> & Hall).
  exists resp, page, images. repeat split; try done.
  symmetry. by eapply Forall2_length.
Qed.

(** C10. When the list call resolves with an object that has no
    [resources] field, or has it [null] or [undefined], [GET /images]
    answers status 200 with an empty array. *)
Theorem images_without_resources env cloudinary req w (fields : gmap string JsValue) :
  cloudinary (ApiResources (resources_options env)) (fresh_res w)
    = Normal (JObject fields) →
  fields !! "resources" = None ∨
  fields !! "resources" = Some JNull ∨
  fields !! "resources" = Some JUndefined →
  response (serve env cloudinary GetImages req w) = Some (200, JArray []).
Proof.
  intros Hresp Hnone.
  assert (first_page (JObject fields) = JArray []) as Hpage.
  { unfold first_page. simpl. by destruct Hnone as [-> | [-> | ->]]. }
  cbv [serve handler get_images try_catch].
  erewrite bind_normal by (by rewrite remote_fresh, Hresp). cbv beta.
  erewrite bind_normal by (by apply get_prop_value). cbv beta.
  fold (first_page (JObject fields)). rewrite Hpage. reflexivity.
Qed.

(** C6. The list handler sends one list call and no other, asking for 200
    results and passing no cursor, whatever the provider answers; with a
    provider that keeps to the page size it is asked for, the array of a
    200 answer has at most 200 elements. *)
Theorem images_single_bounded_page env cloudinary req w :
  honours_max_results cloudinary →
  let w' := serve env cloudinary GetImages req w in
  calls w' = calls w ++ [ApiResources (resources_options env)] ∧
  own_prop (resources_options env) "max_results" = JNumber 200 ∧
  own_prop (resources_options env) "next_cursor" = JUndefined ∧
  ∀ body, response w' = Some (200, body) →
    ∃ images, body = JArray images ∧ (length images ≤ 200)%nat.
Proof.
  intros Hhon. cbv zeta. split; [apply get_images_calls|].
  split; [reflexivity|]. split; [reflexivity|].
  intros body Hok. destruct (get_images_ok _ _ _ _ _ Hok)
    as (resp & page & images & Hresp & Hpage & -> & Hall).
  exists images. split; [done|].
  rewrite <- (Forall2_length _ _ _ Hall).
  pose proof (Hhon _ _ _ 200 _ Hresp eq_refl Hpage). lia.
Qed.

Lemma images_are_summaries_witness :
  let w := idle ∅ in
  let page := [asset "portfolio-gallery/a" 10; asset "portfolio-gallery/b" 20] in
  let body :=
    JArray [obj [("url", JString "https://res.cloudinary.com/demo/portfolio-gallery/a.png");
                 ("public_id", JString "portfolio-gallery/a");
                 ("width", JNumber 10); ("height", JNumber 10);
                 ("format", JString "png");
                 ("created_at", JString "2024-10-27T03:33:20Z")];
            obj [("url", JString "https://res.cloudinary.com/demo/portfolio-gallery/b.png");
                 ("public_id", JString "portfolio-gallery/b");
                 ("width", JNumber 20); ("height", JNumber 20);
                 ("format", JString "png");
                 ("created_at", JString "2024-10-27T03:33:20Z")]] in
  response (serve ∅ (account page) GetImages without_image w) = Some (200, body) ∧
  ∃ resp page' images,
    account page (ApiResources (resources_options ∅)) (fresh_res w) = Normal resp ∧
    first_page resp = JArray page' ∧
    body = JArray images ∧
    length images = length page' ∧
    Forall2 is_summary_of page' images.
Proof.
  cbv zeta. split; [vm_compute; reflexivity|].
  apply (images_are_summaries ∅ _ without_image (idle ∅)).
  vm_compute. reflexivity.
Defined.

Lemma images_without_resources_witness :
  let cloudinary : Provider := λ _ _, Normal (obj [("rate_limit_remaining", JNumber 499)]) in
  let fields : gmap string JsValue := {["rate_limit_remaining" := JNumber 499]} in
  cloudinary (ApiResources (resources_options ∅)) (fresh_res (idle ∅))
    = Normal (JObject fields) ∧
  (fields !! "resources" = None ∨
   fields !! "resources" = Some JNull ∨
   fields !! "resources" = Some JUndefined) ∧
  response (serve ∅ cloudinary GetImages without_image (idle ∅)) = Some (200, JArray []).
Proof.
  cbv zeta. split; [vm_compute; reflexivity|]. split; [left; reflexivity|].
  apply (images_without_resources ∅ _ without_image (idle ∅)
           {["rate_limit_remaining" := JNumber 499]}).
  - vm_compute. reflexivity.
  - left. reflexivity.
Defined.

(** The sample account keeps to the page size. *)
Lemma account_honours_max_results assets : honours_max_results (account assets).
Proof.
  intros options w resp n page Hresp Hmax Hpage.
  simpl in Hresp. rewrite Hmax in Hresp.
  assert (page = take (Z.to_nat n) assets) as ->.
  { case_decide; injection Hresp as <-; by injection Hpage as <-. }
  rewrite length_take. lia.
Qed.

Lemma images_single_bounded_page_witness :
  honours_max_results (account crowded) ∧
  let w' := serve ∅ (account crowded) GetImages without_image (idle ∅) in
  calls w' = calls (idle ∅) ++ [ApiResources (resources_options ∅)] ∧
  own_prop (resources_options ∅) "max_results" = JNumber 200 ∧
  own_prop (resources_options ∅) "next_cursor" = JUndefined ∧
  ∀ body, response w' = Some (200, body) →
    ∃ images, body = JArray images ∧ (length images ≤ 200)%nat.
Proof.
  split; [apply account_honours_max_results|].
  apply (images_single_bounded_page ∅ (account crowded) without_image (idle ∅)).
  apply account_honours_max_results.
Defined.

(** With 250 assets in the account, the list handler answers with the
    first 200 and sends no second call, although the provider's response
    carries a cursor for the rest. *)
Example crowded_account_is_cut :
  let w' := serve ∅ (account crowded) GetImages without_image (idle ∅) in
  own_prop
    (match account crowded (ApiResources (resources_options ∅)) (idle ∅) with
     | Normal resp => resp
     | Throw e => e
     end) "next_cursor" = JString "8c452e112d4c88ac7c9ffb3a2a41c41bef24" ∧
  length (calls w') = 1%nat ∧
  match response w' with
  | Some (200, JArray images) => length images = 200%nat
  | _ => False
  end.
Proof. vm_compute. repeat split. Qed.

(** ** Provider failures *)

(** A rejection that is not [null] or [undefined] is logged, and what
    goes out under [error] is the [message] property of the rejection
    itself. *)
Lemma rejection_message_goes_out env cloudinary route req w c err :
  remote_call env route req = Some c →
  cloudinary c (fresh_res w) = Throw err →
  nullish err = false →
  let w' := serve env cloudinary route req w in
  response w' = Some (500, JObject {["error" := own_prop err "message"]}) ∧
  console w' = console w ++ [err] ∧
  calls w' = calls w ++ [c].
Proof.
  intros Hc Herr Hnull. cbv zeta.
  rewrite (serve_rejected _ _ _ _ _ _ _ Hc Herr).
  rewrite (on_error_value _ _ Hnull), obj_singleton. by simpl.
Qed.

Lemma rejection_message_goes_out_witness :
  let w := idle {[staged_path]} in
  let relayed route c :=
    remote_call ∅ route any_request = Some c ∧
    unreachable c (fresh_res w) = Throw timeout_error ∧
    nullish timeout_error = false ∧
    let w' := serve ∅ unreachable route any_request w in
    response w' = Some (500, JObject {["error" := JString "Request Timeout"]}) ∧
    console w' = console w ++ [timeout_error] ∧
    calls w' = calls w ++ [c] in
  relayed PostUpload (UploaderUpload staged_path (upload_options ∅)) ∧
  relayed DeleteDelete (UploaderDestroy (JString "portfolio-gallery/a")) ∧
  relayed GetImages (ApiResources (resources_options ∅)).
Proof.
  cbv zeta beta.
  pose proof (λ route c,
    rejection_message_goes_out ∅ unreachable route any_request
      (idle {[staged_path]}) c timeout_error) as relay.
  split; [|split].
  - split; [reflexivity|]. split; [reflexivity|]. split; [reflexivity|].
    exact (relay PostUpload _ eq_refl eq_refl eq_refl).
  - split; [reflexivity|]. split; [reflexivity|]. split; [reflexivity|].
    exact (relay DeleteDelete _ eq_refl eq_refl eq_refl).
  - split; [reflexivity|]. split; [reflexivity|]. split; [reflexivity|].
    exact (relay GetImages _ eq_refl eq_refl eq_refl).
Defined.

(** C7. The provider's message is lost on [GET /images]: the provider
    rejects the list call with [{ error: { message, http_code } }], the
    [catch] block reads [err.message], which that rejection does not have,
    and the answer is status 500 with [error] undefined. The rejection is
    logged. *)
Theorem list_error_message_is_lost :
  let w' := serve ∅ (rejecting admin_api_error) GetImages without_image (idle ∅) in
  rejecting admin_api_error (ApiResources (resources_options ∅)) (fresh_res (idle ∅))
    = Throw admin_api_error ∧
  own_prop (own_prop admin_api_error "error") "message"
    = JString "Invalid api_key 123456789" ∧
  response w' = Some (500, JObject {["error" := JUndefined]}) ∧
  console w' = [admin_api_error].
Proof.
  cbv zeta. split; [reflexivity|]. split; [reflexivity|].
  split; [vm_compute; reflexivity | reflexivity].
Qed.

(** ** The folder scope *)

Lemma prefix_of_folder (folder name : string) :
  String.prefix (folder +:+ "/") (folder +:+ "/" +:+ name) = true.
Proof.
  induction folder as [|ch folder IH]; simpl.
  - by destruct name.
  - by destruct (Ascii.ascii_dec ch ch).
Qed.

Lemma in_scope_under prefix a : in_scope prefix a = true → public_id_under prefix a.
Proof.
  unfold in_scope, public_id_under. intros Hin.
  destruct (own_prop a "public_id") as [| | | |id| |]; try discriminate.
  by exists id.
Qed.

Lemma filter_in_scope prefix assets :
  Forall (public_id_under prefix) (List.filter (in_scope prefix) assets).
Proof.
  induction assets as [|a assets IH]; simpl; [constructor|].
  destruct (in_scope prefix a) eqn:Ha; [|exact IH].
  constructor; [by apply in_scope_under | exact IH].
Qed.

(** The sample library stores uploads in the requested folder and lists
    on the requested prefix. *)
Lemma media_library_honours_folder assets : honours_folder (media_library assets).
Proof.
  intros staged options w result folder Hres Hfolder. simpl in Hres.
  rewrite Hfolder in Hres. injection Hres as <-.
  exists (folder +:+ "/image_x7k2p9"). split.
  - unfold asset, obj. simpl. by simplify_map_eq.
  - exact (prefix_of_folder folder "image_x7k2p9").
Qed.

Lemma media_library_honours_prefix assets : honours_prefix (media_library assets).
Proof.
  intros options w resp prefix page Hresp Hprefix Hpage. simpl in Hresp.
  rewrite Hprefix in Hresp.
  assert (∃ n, page = take n (List.filter (in_scope prefix) assets)) as [n ->].
  { destruct (own_prop options "max_results");
      injection Hresp as <-; injection Hpage as <-; by eexists. }
  apply Forall_take, filter_in_scope.
Qed.

(** A 200 from the upload handler: there was a file, the provider resolved
    the call, and [public_id] is the result's. *)
Lemma post_upload_ok env cloudinary req w body :
  response (serve env cloudinary PostUpload req w) = Some (200, body) →
  ∃ f result,
    file req = Some f ∧
    cloudinary (UploaderUpload (path f) (upload_options env)) (fresh_res w)
      = Normal result ∧
    own_prop body "public_id" = own_prop result "public_id".
Proof.
  destruct (file req) as [f|] eqn:Hf.
  2:{ cbv [serve handler post_upload try_catch mbind Js_bind]. rewrite Hf.
      discriminate. }
  destruct (cloudinary (UploaderUpload (path f) (upload_options env)) (fresh_res w))
    as [result|e] eqn:Hr.
  - rewrite (post_upload_resolved _ _ _ _ _ _ Hf Hr).
    destruct (nullish result).
    + unfold response. destruct (sent _); [|discriminate].
      rewrite on_error_status. discriminate.
    + intros [= <-]. exists f, result. repeat split.
      unfold obj. simpl. by simplify_map_eq.
  - erewrite serve_rejected; [|by simpl; rewrite Hf|exact Hr].
    unfold response. destruct (sent _); [|discriminate].
    rewrite on_error_status. discriminate.
Qed.

Lemma summary_keeps_public_id r image :
  is_summary_of r image → own_prop image "public_id" = own_prop r "public_id".
Proof. intros (fields & -> & _ & _ & Hid & _). simpl. by rewrite Hid. Qed.

Lemma summaries_under scope page images :
  Forall2 is_summary_of page images →
  Forall (public_id_under scope) page →
  Forall (public_id_under scope) images.
Proof.
  induction 1 as [|r image page images Hsum _ IH]; [constructor|].
  intros Hpage. apply Forall_cons in Hpage as [(id & Hid & Hunder) Hrest].
  constructor; [|by apply IH].
  exists id. by rewrite (summary_keeps_public_id _ _ Hsum).
Qed.

(** C8. The folder scope is the configured one: [FOLDER] is the
    environment's [FOLDER_NAME] when that is set and not empty, and
    [portfolio-gallery] without it. Every call the upload handler sends
    asks for the asset to be created in [FOLDER], and every call the list
    handler sends filters on the prefix [FOLDER/]. So, with a provider that
    stores an upload in the folder it is asked for and filters a listing
    on the prefix it is asked for, the asset of every 200 from the upload
    handler and every asset in a 200 from the list handler has its public
    id under [FOLDER/]. *)
Theorem folder_scope env cloudinary req w :
  honours_folder cloudinary →
  honours_prefix cloudinary →
  let scope := FOLDER env +:+ "/" in
  (∀ name, env !! "FOLDER_NAME" = Some name → name ≠ "" → FOLDER env = name) ∧
  FOLDER (delete "FOLDER_NAME" env) = "portfolio-gallery" ∧
  (∀ c, c ∈ calls_since w (serve env cloudinary PostUpload req w) →
        ∃ staged options,
          c = UploaderUpload staged options ∧
          own_prop options "folder" = JString (FOLDER env)) ∧
  (∀ body, response (serve env cloudinary PostUpload req w) = Some (200, body) →
           public_id_under scope body) ∧
  (∀ c, c ∈ calls_since w (serve env cloudinary GetImages req w) →
        ∃ options,
          c = ApiResources options ∧
          own_prop options "prefix" = JString scope) ∧
  (∀ body, response (serve env cloudinary GetImages req w) = Some (200, body) →
           ∃ images, body = JArray images ∧ Forall (public_id_under scope) images).
Proof.
  intros Hfolder Hprefix. cbv zeta.
  unfold calls_since. rewrite post_upload_calls, get_images_calls, !drop_app_length.
  repeat apply conj.
  - intros name Hname Hne. unfold FOLDER, env_or. rewrite Hname.
    by apply String.eqb_neq in Hne as ->.
  - unfold FOLDER, env_or. by rewrite lookup_delete_eq.
  - intros c Hc. simpl in Hc. destruct (file req) as [f|].
    + apply list_elem_of_singleton in Hc as ->. by eexists _, _.
    + by apply not_elem_of_nil in Hc.
  - intros body Hok.
    destruct (post_upload_ok _ _ _ _ _ Hok) as (f & result & _ & Hres & Hid).
    destruct (Hfolder _ _ _ _ (FOLDER env) Hres eq_refl) as (id & Hresult & Hunder).
    exists id. by rewrite Hid.
  - intros c Hc. apply list_elem_of_singleton in Hc as ->. by eexists.
  - intros body Hok.
    destruct (get_images_ok _ _ _ _ _ Hok)
      as (resp & page & images & Hresp & Hpage & -> & Hsum).
    exists images. split; [done|].
    apply (summaries_under _ page); [exact Hsum|].
    by apply (Hprefix _ _ _ _ _ Hresp eq_refl).
Qed.

(** Assets of two applications in one account. *)
Lemma folder_scope_witness :
  let env : gmap string string := {["FOLDER_NAME" := "holiday"]} in
  let shared := [asset "holiday/beach" 10; asset "portfolio-gallery/logo" 10;
                 asset "holiday/dunes" 20] in
  let cloudinary := media_library shared in
  let scope := FOLDER env +:+ "/" in
  honours_folder cloudinary ∧
  honours_prefix cloudinary ∧
  scope = "holiday/" ∧
  (∀ name, env !! "FOLDER_NAME" = Some name → name ≠ "" → FOLDER env = name) ∧
  FOLDER (delete "FOLDER_NAME" env) = "portfolio-gallery" ∧
  (∀ c, c ∈ calls_since (idle {[staged_path]})
              (serve env cloudinary PostUpload with_image (idle {[staged_path]})) →
        ∃ staged options,
          c = UploaderUpload staged options ∧
          own_prop options "folder" = JString (FOLDER env)) ∧
  (∀ body, response (serve env cloudinary PostUpload with_image (idle {[staged_path]}))
             = Some (200, body) →
           public_id_under scope body) ∧
  (∀ c, c ∈ calls_since (idle {[staged_path]})
              (serve env cloudinary GetImages with_image (idle {[staged_path]})) →
        ∃ options,
          c = ApiResources options ∧
          own_prop options "prefix" = JString scope) ∧
  (∀ body, response (serve env cloudinary GetImages with_image (idle {[staged_path]}))
             = Some (200, body) →
           ∃ images, body = JArray images ∧ Forall (public_id_under scope) images).
Proof.
  cbv zeta.
  split; [apply media_library_honours_folder|].
  split; [apply media_library_honours_prefix|].
  split; [reflexivity|].
  apply (folder_scope {["FOLDER_NAME" := "holiday"]}
           (media_library [asset "holiday/beach" 10; asset "portfolio-gallery/logo" 10;
                           asset "holiday/dunes" 20])
           with_image (idle {[staged_path]})).
  - apply media_library_honours_folder.
  - apply media_library_honours_prefix.
Defined.

(** What the two handlers answer in that account: the upload is stored
    under [holiday/], and the listing holds the two assets under
    [holiday/], without the one of the other application. *)
Example folder_scope_in_shared_account :
  let env : gmap string string := {["FOLDER_NAME" := "holiday"]} in
  let cloudinary :=
    media_library [asset "holiday/beach" 10; asset "portfolio-gallery/logo" 10;
                   asset "holiday/dunes" 20] in
  (∃ body, response (serve env cloudinary PostUpload with_image (idle {[staged_path]}))
             = Some (200, body) ∧
           own_prop body "public_id" = JString "holiday/image_x7k2p9") ∧
  (∃ first second,
     response (serve env cloudinary GetImages with_image (idle {[staged_path]}))
       = Some (200, JArray [first; second]) ∧
     own_prop first "public_id" = JString "holiday/beach" ∧
     own_prop second "public_id" = JString "holiday/dunes").
Proof.
  cbv zeta. split.
  - eexists. split; [vm_compute; reflexivity | reflexivity].
  - eexists _, _. split; [vm_compute; reflexivity | split; reflexivity].
Qed.

(** The handler itself does not filter: a resource outside the scope that
    the provider sends is relayed like any other. *)
Example list_handler_does_not_filter :
  let resp := obj [("resources", JArray [asset "elsewhere/x" 10])] in
  ∃ image,
    response (serve ∅ (resolving resp) GetImages without_image (idle ∅))
      = Some (200, JArray [image]) ∧
    own_prop image "public_id" = JString "elsewhere/x".
Proof. cbv zeta. eexists. split; [vm_compute; reflexivity | reflexivity]. Qed.

(** * Further properties of the handlers *)

(** ** Every path of a request *)

Lemma TypeError_message msg : own_prop (TypeError msg) "message" = JString msg.
Proof. unfold TypeError, obj. simpl. by simplify_map_eq. Qed.

Lemma get_prop_throws v k w :
  nullish v = true → ∃ msg, get_prop v k w = (Throw (TypeError msg), w).
Proof. intros H. unfold get_prop. rewrite H. by eexists. Qed.

Lemma summary_throws r w :
  nullish r = true → ∃ msg, summary r w = (Throw (TypeError msg), w).
Proof.
  intros Hr. destruct (get_prop_throws r "secure_url" w Hr) as [msg Hmsg].
  exists msg. unfold summary. by apply bind_throw.
Qed.

(** [.map] over a page is all or nothing: the summaries of all its
    resources when none is [null] or [undefined], a [TypeError] as soon as
    one is. *)
Lemma map_items_summary_cases page w :
  (Forall (λ r, nullish r = false) page ∧
   ∃ images, map_items summary page w = (Normal images, w) ∧
             Forall2 is_summary_of page images) ∨
  (Exists (λ r, nullish r = true) page ∧
   ∃ msg, map_items summary page w = (Throw (TypeError msg), w)).
Proof.
  induction page as [|r page IH]; simpl.
  - left. split; [constructor|]. exists []. split; [reflexivity | constructor].
  - destruct (nullish r) eqn:Hr.
    + right. split; [by constructor|].
      destruct (summary_throws r w Hr) as [msg Hmsg].
      exists msg. by apply bind_throw.
    + destruct (summary_value r w Hr) as (image & Hrun & Himage).
      rewrite (bind_normal _ _ _ _ _ Hrun).
      destruct IH as [(Hall & images & Hrest & Hsum) | (Hbad & msg & Hrest)].
      * left. split; [by constructor|]. exists (image :: images).
        split; [|by constructor]. by rewrite (bind_normal _ _ _ _ _ Hrest).
      * right. split; [by constructor|]. exists msg. by apply bind_throw.
Qed.

Section Outcomes.

Context (env : gmap string string) (cloudinary : Provider).

Lemma delete_resolved req w v :
  cloudinary (UploaderDestroy (param req "public_id")) (fresh_res w) = Normal v →
  serve env cloudinary DeleteDelete req w =
    mkWorld (files w) (undeletable w) (console w)
            (calls w ++ [UploaderDestroy (param req "public_id")]) 200
            (Some (obj [("result", v)])).
Proof.
  intros Hv. cbv [serve handler delete_delete try_catch mbind Js_bind remote].
  rewrite Hv. reflexivity.
Qed.

(** The [try] block of the list handler once the provider has resolved
    the call: the summaries go out when the page is an array without
    [null] or [undefined] in it, and a [TypeError] is thrown otherwise. *)
Lemma listing_resolved w resp :
  let c := ApiResources (resources_options env) in
  cloudinary c (fresh_res w) = Normal resp →
  (nullish resp = false ∧
   ∃ page images,
     first_page resp = JArray page ∧
     Forall (λ r, nullish r = false) page ∧
     Forall2 is_summary_of page images ∧
     listing env cloudinary (fresh_res w) =
       (Normal tt,
        mkWorld (files w) (undeletable w) (console w) (calls w ++ [c]) 200
                (Some (JArray images)))) ∨
  ((nullish resp = true ∨
    (∀ page, first_page resp ≠ JArray page) ∨
    (∃ page, first_page resp = JArray page ∧
             Exists (λ r, nullish r = true) page)) ∧
   ∃ msg, listing env cloudinary (fresh_res w) = (Throw (TypeError msg), called c w)).
Proof.
  intros c Hresp. unfold listing. fold c.
  erewrite bind_normal by (by rewrite remote_fresh, Hresp). cbv beta.
  destruct (nullish resp) eqn:Hnull.
  { right. split; [by left|].
    destruct (get_prop_throws resp "resources" (called c w) Hnull) as [msg Hmsg].
    exists msg. by apply bind_throw. }
  erewrite bind_normal by (by apply get_prop_value). cbv beta.
  fold (first_page resp).
  destruct (first_page resp) as [| |b|n|s|page|o] eqn:Hpage;
    try (right; split; [right; left; by intros page|];
         eexists; apply bind_throw; reflexivity).
  unfold call_map.
  destruct (map_items_summary_cases page (called c w))
    as [(Hall & images & Hrun & Hsum)|(Hbad & msg & Hrun)].
  - left. split; [done|]. exists page, images. repeat split; try done.
    erewrite bind_normal by (by erewrite bind_normal by exact Hrun).
    reflexivity.
  - right. split; [right; right; by exists page|].
    exists msg. do 2 apply bind_throw. exact Hrun.
Qed.

(** The three ways a request ends: the upload handler turns it down for
    want of a file; the remote call resolves and the answer is 200; or the
    [catch] block runs, on the provider's rejection or on a [TypeError]
    raised while the resolved value was read. [on_disk] is what is on disk
    afterwards: what was there, less the staged file when the upload
    handler unlinked it. *)
Lemma serve_outcome route req w :
  let w' := serve env cloudinary route req w in
  (route = PostUpload ∧ file req = None ∧
   w' = mkWorld (files w) (undeletable w) (console w) (calls w) 400
                (Some (obj [("error", JString "No file")]))) ∨
  (∃ c on_disk,
     remote_call env route req = Some c ∧
     (on_disk = files w ∨
      ∃ f, route = PostUpload ∧ file req = Some f ∧ on_disk = files w ∖ {[path f]}) ∧
     ((∃ v body,
         cloudinary c (fresh_res w) = Normal v ∧
         w' = mkWorld on_disk (undeletable w) (console w) (calls w ++ [c]) 200
                      (Some body)) ∨
      (∃ e,
         (cloudinary c (fresh_res w) = Throw e ∨
          ∃ v msg, cloudinary c (fresh_res w) = Normal v ∧ e = TypeError msg) ∧
         w' = snd (on_error e
                     (mkWorld on_disk (undeletable w) (console w) (calls w ++ [c])
                              200 None))))).
Proof.
  cbv zeta. destruct route.
  - (* POST /upload *)
    destruct (file req) as [f|] eqn:Hf.
    2:{ left. repeat split; try done.
        cbv [serve handler post_upload try_catch mbind Js_bind]. by rewrite Hf. }
    right. simpl. rewrite Hf.
    set (c := UploaderUpload (path f) (upload_options env)).
    destruct (cloudinary c (fresh_res w)) as [result|e] eqn:Hr.
    + rewrite (post_upload_resolved _ _ _ _ _ _ Hf Hr). fold c.
      exists c. 
      exists (if decide (path f ∈ undeletable w) then files w
              else files w ∖ {[path f]}).
      split; [done|]. split.
      { case_decide; [by left | right; by exists f]. }
      destruct (nullish result).
      * right. eexists. split; [right; by eexists _, _|]. reflexivity.
      * left. by eexists _, _.
    + exists c, (files w). split; [done|]. split; [by left|].
      right. exists e. split; [by left|].
      erewrite serve_rejected; [reflexivity| by simpl; rewrite Hf | exact Hr].
  - (* DELETE /delete/:public_id *)
    right. simpl. set (c := UploaderDestroy (param req "public_id")).
    exists c, (files w). split; [done|]. split; [by left|].
    destruct (cloudinary c (fresh_res w)) as [v|e] eqn:Hv.
    + left. rewrite (delete_resolved _ _ _ Hv). by eexists _, _.
    + right. exists e. split; [by left|].
      by erewrite serve_rejected.
  - (* GET /images *)
    right. simpl. set (c := ApiResources (resources_options env)).
    exists c, (files w). split; [done|]. split; [by left|].
    destruct (cloudinary c (fresh_res w)) as [resp|e] eqn:Hresp.
    + rewrite get_images_listing.
      destruct (listing_resolved w resp Hresp)
        as [(_ & page & images & _ & _ & _ & ->)|(_ & msg & ->)].
      * left. by eexists _, _.
      * right. eexists. split; [right; by eexists _, _|]. reflexivity.
    + right. exists e. split; [by left|].
      by erewrite serve_rejected.
Qed.

End Outcomes.

(** ** What an answer tells *)

Lemma remote_call_needs_file env route req c :
  remote_call env route req = Some c → ¬ (route = PostUpload ∧ file req = None).
Proof. intros Hc [-> Hf]. simpl in Hc. by rewrite Hf in Hc. Qed.

Lemma response_after_error e w :
  sent w = None →
  response (snd (on_error e w)) =
    if nullish e then None
    else Some (500, JObject {["error" := own_prop e "message"]}).
Proof.
  intros Hsent. destruct (nullish e) eqn:He.
  - destruct (on_error_nullish e w He) as [e' ->]. unfold response. simpl.
    by rewrite Hsent.
  - by rewrite (on_error_value e w He), obj_singleton.
Qed.

Lemma console_after_error e w :
  console (snd (on_error e w)) = console w ++ [e].
Proof.
  destruct (nullish e) eqn:He.
  - by destruct (on_error_nullish e w He) as [e' ->].
  - by rewrite (on_error_value e w He).
Qed.

(** X1. The status of an answer is 200, 400 or 500, and it is 400 exactly
    when the request was an upload without a file. *)
Theorem response_status_classes env cloudinary route req w status body :
  response (serve env cloudinary route req w) = Some (status, body) →
  (status = 200 ∨ status = 400 ∨ status = 500) ∧
  (status = 400 ↔ route = PostUpload ∧ file req = None).
Proof.
  destruct (serve_outcome env cloudinary route req w)
    as [(Hroute & Hfile & ->)
       |(c & on_disk & Hc & _ & [(v & b & _ & ->)|(e & _ & ->)])].
  - intros [= <- _]. split; [by right; left | done].
  - intros [= <- _]. split; [by left|].
    split; [done | intros H; by destruct (remote_call_needs_file _ _ _ _ Hc)].
  - rewrite response_after_error by done.
    destruct (nullish e); [done|]. intros [= <- _]. split; [by right; right|].
    split; [done | intros H; by destruct (remote_call_needs_file _ _ _ _ Hc)].
Qed.

Lemma response_status_classes_witness :
  let w' := serve ∅ unreachable PostUpload without_image (idle ∅) in
  response w' = Some (400, JObject {["error" := JString "No file"]}) ∧
  (400 = 200 ∨ 400 = 400 ∨ 400 = 500) ∧
  (400 = 400 ↔ PostUpload = PostUpload ∧ file without_image = None).
Proof.
  cbv zeta. split; [vm_compute; reflexivity|].
  apply (response_status_classes ∅ unreachable PostUpload without_image (idle ∅)
           400 (JObject {["error" := JString "No file"]})).
  vm_compute. reflexivity.
Defined.

(** X2. A 200 is never a masked failure: the handler's remote call was
    sent and the provider resolved it, nothing was written to the console,
    and that call is the only one the request added. *)
Theorem success_means_resolved env cloudinary route req w body :
  response (serve env cloudinary route req w) = Some (200, body) →
  ∃ c v,
    remote_call env route req = Some c ∧
    cloudinary c (fresh_res w) = Normal v ∧
    console (serve env cloudinary route req w) = console w ∧
    calls (serve env cloudinary route req w) = calls w ++ [c].
Proof.
  destruct (serve_outcome env cloudinary route req w)
    as [(Hroute & Hfile & ->)
       |(c & on_disk & Hc & _ & [(v & b & Hv & ->)|(e & _ & ->)])].
  - discriminate.
  - intros _. by exists c, v.
  - rewrite response_after_error by done. by destruct (nullish e).
Qed.

Lemma success_means_resolved_witness :
  let w := idle ∅ in
  let req := delete_of "portfolio-gallery/a" in
  let w' := serve ∅ (account []) DeleteDelete req w in
  response w' = Some (200, JObject {["result" := JString "not found"]}) ∧
  ∃ c v,
    remote_call ∅ DeleteDelete req = Some c ∧
    account [] c (fresh_res w) = Normal v ∧
    console w' = console w ∧
    calls w' = calls w ++ [c].
Proof.
  cbv zeta. split; [vm_compute; reflexivity|].
  apply (success_means_resolved ∅ (account []) DeleteDelete
           (delete_of "portfolio-gallery/a") (idle ∅)
           (JObject {["result" := JString "not found"]})).
  vm_compute. reflexivity.
Defined.

(** X3. Every 500 has its cause in the console: exactly one value was
    logged, it is the provider's rejection or a [TypeError] raised while
    the resolved value was read, and the body is [{ error }] with that
    value's [message]. *)
Theorem failure_is_logged env cloudinary route req w body :
  response (serve env cloudinary route req w) = Some (500, body) →
  ∃ c err,
    remote_call env route req = Some c ∧
    (cloudinary c (fresh_res w) = Throw err ∨
     ∃ v msg, cloudinary c (fresh_res w) = Normal v ∧ err = TypeError msg) ∧
    console (serve env cloudinary route req w) = console w ++ [err] ∧
    body = JObject {["error" := own_prop err "message"]}.
Proof.
  destruct (serve_outcome env cloudinary route req w)
    as [(Hroute & Hfile & ->)
       |(c & on_disk & Hc & _ & [(v & b & Hv & ->)|(e & He & ->)])].
  - discriminate.
  - discriminate.
  - rewrite response_after_error, console_after_error by done.
    destruct (nullish e); [done|]. intros [= <-]. by exists c, e.
Qed.

Lemma failure_is_logged_witness :
  let w := idle ∅ in
  let sdk := resolving (obj [("resources", JString "none")]) in
  let w' := serve ∅ sdk GetImages without_image w in
  let body :=
    JObject {["error" := JString "(response.resources || []).map is not a function"]} in
  response w' = Some (500, body) ∧
  ∃ c err,
    remote_call ∅ GetImages without_image = Some c ∧
    (sdk c (fresh_res w) = Throw err ∨
     ∃ v msg, sdk c (fresh_res w) = Normal v ∧ err = TypeError msg) ∧
    console w' = console w ++ [err] ∧
    body = JObject {["error" := own_prop err "message"]}.
Proof.
  cbv zeta. split; [vm_compute; reflexivity|].
  apply (failure_is_logged ∅ (resolving (obj [("resources", JString "none")]))
           GetImages without_image (idle ∅)).
  vm_compute. reflexivity.
Defined.

(** A handler ends without having called [res.json] exactly when the
    provider rejects its call with [null] or [undefined]. *)
Lemma unsent_iff_nullish_rejection env cloudinary route req w :
  let w' := serve env cloudinary route req w in
  (response w' = None ↔
   ∃ c e, remote_call env route req = Some c ∧
          cloudinary c (fresh_res w) = Throw e ∧ nullish e = true) ∧
  (response w' = None →
   statusCode w' = 500 ∧ ∃ e, nullish e = true ∧ console w' = console w ++ [e]).
Proof.
  cbv zeta.
  destruct (serve_outcome env cloudinary route req w)
    as [(Hroute & Hfile & ->)
       |(c & on_disk & Hc & _ & [(v & b & Hv & ->)|(e & He & ->)])].
  - split; [split|]; try discriminate.
    intros (c & e & Hc & _). by destruct (remote_call_needs_file _ _ _ _ Hc).
  - split; [split|]; try discriminate.
    intros (c' & e & Hc' & He & _). congruence.
  - rewrite response_after_error, console_after_error, on_error_status by done.
    destruct (nullish e) eqn:Hnull.
    + split; [split; [intros _|done]|intros _; split; [done | by exists e]].
      destruct He as [He|(v & msg & _ & ->)]; [by exists c, e | done].
    + split; [split|]; try discriminate.
      intros (c' & e' & Hc' & He' & Hnull').
      destruct He as [He|(v & msg & Hv & _)]; congruence.
Qed.

(** How a handler completes: normally, having sent a response, or by
    throwing out of its [catch] block, having sent none. *)
Lemma handler_run env cloudinary route req w :
  let run := handler env cloudinary route req (fresh_res w) in
  (fst run = Normal tt ∧ is_Some (sent (snd run))) ∨
  (∃ thrown, fst run = Throw thrown ∧ sent (snd run) = None).
Proof.
  cbv zeta.
  assert (∀ (body : Js unit) w0,
            (∃ w1, body w0 = (Normal tt, w1) ∧ is_Some (sent w1)) ∨
            (∃ e w1, body w0 = (Throw e, w1) ∧ sent w1 = None) →
            let run := try_catch body on_error w0 in
            (fst run = Normal tt ∧ is_Some (sent (snd run))) ∨
            (∃ thrown, fst run = Throw thrown ∧ sent (snd run) = None)) as Hcatch.
  { intros body w0 [(w1 & Hrun & Hsent)|(e & w1 & Hrun & Hsent)]; cbv zeta;
      unfold try_catch; rewrite Hrun.
    - by left.
    - destruct (nullish e) eqn:Hnull.
      + right. destruct (on_error_nullish e w1 Hnull) as [thrown ->].
        by exists thrown.
      + left. rewrite (on_error_value e w1 Hnull). by split; [|eexists]. }
  destruct route; simpl; apply Hcatch.
  - (* POST /upload *)
    destruct (file req) as [f|];
      [|left; eexists; split; [reflexivity | by eexists]].
    unfold mbind, Js_bind, remote.
    destruct (cloudinary _ _) as [result|e];
      [|right; eexists _, _; split; [reflexivity | done]].
    rewrite unlink_ignored. unfold get_prop.
    destruct (nullish result).
    + right. eexists _, _. split; [reflexivity | done].
    + left. eexists. split; [reflexivity | by eexists].
  - (* DELETE /delete/:public_id *)
    unfold mbind, Js_bind, remote.
    destruct (cloudinary _ _) as [v|e].
    + left. eexists. split; [reflexivity | by eexists].
    + right. eexists _, _. split; [reflexivity | done].
  - (* GET /images *)
    fold (listing env cloudinary).
    destruct (listing_outcome env cloudinary w)
      as [(resp & page & images & _ & _ & _ & ->)|(e & ->)].
    + left. eexists. split; [reflexivity | by eexists].
    + right. eexists _, _. split; [reflexivity | done].
Qed.

(** X4. An exception escapes a route handler exactly when the provider
    rejects the handler's call with [null] or [undefined]: reading
    [err.message] throws inside the [catch] block, after the value was
    logged and the status set to 500, and the handler ends without having
    called [res.json]. *)
Theorem handler_throws_iff_nullish_rejection env cloudinary route req w :
  let run := handler env cloudinary route req (fresh_res w) in
  ((∃ thrown, fst run = Throw thrown) ↔
   ∃ c e, remote_call env route req = Some c ∧
          cloudinary c (fresh_res w) = Throw e ∧ nullish e = true) ∧
  ((∃ thrown, fst run = Throw thrown) →
   sent (snd run) = None ∧
   statusCode (snd run) = 500 ∧
   ∃ e, nullish e = true ∧ console (snd run) = console w ++ [e]).
Proof.
  cbv zeta.
  destruct (unsent_iff_nullish_rejection env cloudinary route req w) as [Hiff Hlog].
  assert ((∃ thrown, fst (handler env cloudinary route req (fresh_res w)) = Throw thrown)
          ↔ response (serve env cloudinary route req w) = None) as Hthrows.
  { unfold response, serve.
    destruct (handler_run env cloudinary route req w)
      as [[Hrun [body Hsent]]|(thrown & Hrun & Hsent)]; rewrite Hsent.
    - split; [intros [thrown Hthrown]; congruence | discriminate].
    - split; [done | intros _; by exists thrown]. }
  split.
  - by rewrite Hthrows.
  - intros Hthrown. apply Hthrows in Hthrown. split; [|by apply Hlog].
    unfold response in Hthrown. fold (serve env cloudinary route req w).
    by destruct (sent _).
Qed.

(** A provider that rejects with [null]: the delete handler logs it, sets
    the status and throws without sending. *)
Example null_rejection_escapes_the_handler :
  let run := handler ∅ (rejecting JNull) DeleteDelete (delete_of "a") (fresh_res (idle ∅)) in
  (∃ thrown, fst run = Throw thrown) ∧
  sent (snd run) = None ∧ console (snd run) = [JNull] ∧ statusCode (snd run) = 500.
Proof. cbv zeta. split; [eexists; vm_compute; reflexivity | by vm_compute]. Qed.

(** ** The staged file *)



(** X6. When the create-asset call resolves with [null] or [undefined],
    the upload handler has unlinked the staged file by the time reading
    [result.secure_url] throws: the answer is a 500 with the [TypeError]'s
    message, the [TypeError] is logged, and the file is gone unless the
    file system refused to remove it. *)
Theorem upload_nullish_result env cloudinary req w f result :
  file req = Some f →
  cloudinary (UploaderUpload (path f) (upload_options env)) (fresh_res w)
    = Normal result →
  nullish result = true →
  let w' := serve env cloudinary PostUpload req w in
  ∃ msg,
    response w' = Some (500, JObject {["error" := JString msg]}) ∧
    console w' = console w ++ [TypeError msg] ∧
    (path f ∉ undeletable w → files w' = files w ∖ {[path f]}).
Proof.
  intros Hf Hr Hnull. cbv zeta.
  rewrite (post_upload_resolved _ _ _ _ _ _ Hf Hr), Hnull.
  eexists. rewrite response_after_error, console_after_error, on_error_files by done.
  rewrite TypeError_message. simpl.
  repeat split. intros Hdel. by case_decide.
Qed.

Lemma upload_nullish_result_witness :
  let w := idle {[staged_path]} in
  file with_image = Some (mkFile staged_path) ∧
  resolving JUndefined (UploaderUpload staged_path (upload_options ∅)) (fresh_res w)
    = Normal JUndefined ∧
  nullish JUndefined = true ∧
  let w' := serve ∅ (resolving JUndefined) PostUpload with_image w in
  ∃ msg,
    response w' = Some (500, JObject {["error" := JString msg]}) ∧
    console w' = console w ++ [TypeError msg] ∧
    (staged_path ∉ undeletable w → files w' = files w ∖ {[staged_path]}).
Proof.
  cbv zeta. split; [reflexivity|]. split; [reflexivity|]. split; [reflexivity|].
  apply (upload_nullish_result ∅ (resolving JUndefined) with_image
           (idle {[staged_path]}) (mkFile staged_path) JUndefined); reflexivity.
Defined.

(** X7. No handler creates a file, and the only file a request can remove
    is its own staged file: what is on disk after a request is what was
    there before, or, for an upload whose create-asset call resolved, that
    less [req.file.path]. *)
Theorem handlers_only_unlink_staged_file env cloudinary route req w :
  let w' := serve env cloudinary route req w in
  files w' = files w ∨
  ∃ f result,
    route = PostUpload ∧ file req = Some f ∧
    cloudinary (UploaderUpload (path f) (upload_options env)) (fresh_res w)
      = Normal result ∧
    files w' = files w ∖ {[path f]}.
Proof.
  cbv zeta.
  destruct (serve_outcome env cloudinary route req w)
    as [(Hroute & Hfile & ->)
       |(c & on_disk & Hc & Hdisk & Hend)].
  { by left. }
  assert (files (serve env cloudinary route req w) = on_disk) as Hfiles.
  { destruct Hend as [(v & b & _ & ->)|(e & _ & ->)];
      [done | by rewrite on_error_files]. }
  rewrite Hfiles. destruct Hdisk as [->|(f & -> & Hf & ->)]; [by left|].
  destruct (cloudinary (UploaderUpload (path f) (upload_options env)) (fresh_res w))
    as [result|e] eqn:Hr.
  - right. by exists f, result.
  - left. rewrite <- Hfiles. by eapply upload_rejected_keeps_files.
Qed.

(** ** The list handler, case by case *)

Lemma get_images_well_formed env cloudinary req w resp page :
  cloudinary (ApiResources (resources_options env)) (fresh_res w) = Normal resp →
  nullish resp = false →
  first_page resp = JArray page →
  Forall (λ r, nullish r = false) page →
  ∃ images,
    serve env cloudinary GetImages req w =
      mkWorld (files w) (undeletable w) (console w)
              (calls w ++ [ApiResources (resources_options env)]) 200
              (Some (JArray images)) ∧
    Forall2 is_summary_of page images.
Proof.
  intros Hresp Hnull Hpage Hall. rewrite get_images_listing.
  destruct (listing_resolved env cloudinary w resp Hresp)
    as [(_ & page' & images & Hpage' & _ & Hsum & ->)
       |([Hbad|[Hbad|(page' & Hpage' & Hbad)]] & _)].
  - exists images. split; [done|]. congruence.
  - congruence.
  - by destruct (Hbad page).
  - assert (page' = page) as -> by congruence.
    apply Exists_exists in Hbad as (r & Hin & Hr).
    rewrite Forall_forall in Hall. specialize (Hall r Hin). congruence.
Qed.

(** X8. The list handler answers 200 whenever the provider resolves the
    call with a value whose [resources || []] is an array without [null]
    or [undefined] in it: the body is then the array of the summaries, one
    for each resource and in the same order, and nothing is logged. *)
Theorem images_of_well_formed_page env cloudinary req w resp page :
  cloudinary (ApiResources (resources_options env)) (fresh_res w) = Normal resp →
  nullish resp = false →
  first_page resp = JArray page →
  Forall (λ r, nullish r = false) page →
  ∃ images,
    response (serve env cloudinary GetImages req w) = Some (200, JArray images) ∧
    Forall2 is_summary_of page images ∧
    console (serve env cloudinary GetImages req w) = console w.
Proof.
  intros Hresp Hnull Hpage Hall.
  destruct (get_images_well_formed env cloudinary req w resp page
              Hresp Hnull Hpage Hall) as (images & -> & Hsum).
  by exists images.
Qed.

Lemma images_of_well_formed_page_witness :
  let w := idle ∅ in
  let page := [asset "portfolio-gallery/a" 10; JString "stray"; JNumber 7] in
  let resp := obj [("resources", JArray page); ("rate_limit_allowed", JNumber 500)] in
  resolving resp (ApiResources (resources_options ∅)) (fresh_res w) = Normal resp ∧
  nullish resp = false ∧
  first_page resp = JArray page ∧
  Forall (λ r, nullish r = false) page ∧
  ∃ images,
    response (serve ∅ (resolving resp) GetImages without_image w)
      = Some (200, JArray images) ∧
    Forall2 is_summary_of page images ∧
    console (serve ∅ (resolving resp) GetImages without_image w) = console w.
Proof.
  cbv zeta.
  assert (Forall (λ r, nullish r = false)
            [asset "portfolio-gallery/a" 10; JString "stray"; JNumber 7]) as Hall.
  { repeat constructor. }
  split; [reflexivity|]. split; [reflexivity|]. split; [reflexivity|].
  split; [exact Hall|].
  apply (images_of_well_formed_page ∅ _ without_image (idle ∅)
           (obj [("resources",
                  JArray [asset "portfolio-gallery/a" 10; JString "stray"; JNumber 7]);
                 ("rate_limit_allowed", JNumber 500)])
           [asset "portfolio-gallery/a" 10; JString "stray"; JNumber 7]);
    [reflexivity | reflexivity | reflexivity | exact Hall].
Defined.

(** X9. The list handler sends no partial list. When the provider
    resolves the call with [null] or [undefined], with a [resources] that
    is truthy but not an array, or with an array that holds a [null] or an
    [undefined], the answer is a 500 with the message of the [TypeError]
    that was raised, and that [TypeError] is logged. *)
Theorem images_of_malformed_response env cloudinary req w resp :
  cloudinary (ApiResources (resources_options env)) (fresh_res w) = Normal resp →
  nullish resp = true ∨
  (∀ page, first_page resp ≠ JArray page) ∨
  (∃ page, first_page resp = JArray page ∧ Exists (λ r, nullish r = true) page) →
  ∃ msg,
    response (serve env cloudinary GetImages req w)
      = Some (500, JObject {["error" := JString msg]}) ∧
    console (serve env cloudinary GetImages req w) = console w ++ [TypeError msg].
Proof.
  intros Hresp Hbad. rewrite get_images_listing.
  destruct (listing_resolved env cloudinary w resp Hresp)
    as [(Hnull & page & images & Hpage & Hall & _ & _)|(_ & msg & ->)].
  - exfalso. destruct Hbad as [Hbad|[Hbad|(page' & Hpage' & Hbad)]].
    + congruence.
    + by destruct (Hbad page).
    + assert (page' = page) as -> by congruence.
      apply Exists_exists in Hbad as (r & Hin & Hr).
      rewrite Forall_forall in Hall. specialize (Hall r Hin). congruence.
  - exists msg.
    rewrite response_after_error, console_after_error, TypeError_message by done.
    done.
Qed.

Lemma images_of_malformed_response_witness :
  let w := idle ∅ in
  let page := [asset "portfolio-gallery/a" 10; JNull; asset "portfolio-gallery/b" 10] in
  let resp := obj [("resources", JArray page)] in
  resolving resp (ApiResources (resources_options ∅)) (fresh_res w) = Normal resp ∧
  (first_page resp = JArray page ∧ Exists (λ r, nullish r = true) page) ∧
  ∃ msg,
    response (serve ∅ (resolving resp) GetImages without_image w)
      = Some (500, JObject {["error" := JString msg]}) ∧
    console (serve ∅ (resolving resp) GetImages without_image w)
      = console w ++ [TypeError msg].
Proof.
  cbv zeta.
  assert (Exists (λ r, nullish r = true)
            [asset "portfolio-gallery/a" 10; JNull; asset "portfolio-gallery/b" 10])
    as Hbad.
  { apply Exists_cons_tl, Exists_cons_hd. reflexivity. }
  split; [reflexivity|]. split; [by split|].
  apply (images_of_malformed_response ∅ _ without_image (idle ∅)
           (obj [("resources",
                  JArray [asset "portfolio-gallery/a" 10; JNull;
                          asset "portfolio-gallery/b" 10])]));
    [reflexivity|].
  right. right. eexists. split; [reflexivity | exact Hbad].
Defined.

(** X10. [response.resources || []] takes the empty array for every falsy
    [resources], not only a missing one: [false], [0] and the empty
    string, and any resolved value that holds no [resources] at all (a
    string or a number, say), give a 200 with an empty array. *)
Theorem images_of_falsy_resources env cloudinary req w resp :
  cloudinary (ApiResources (resources_options env)) (fresh_res w) = Normal resp →
  nullish resp = false →
  truthy (own_prop resp "resources") = false →
  response (serve env cloudinary GetImages req w) = Some (200, JArray []).
Proof.
  intros Hresp Hnull Hfalsy.
  assert (first_page resp = JArray []) as Hpage.
  { unfold first_page, js_or. by rewrite Hfalsy. }
  destruct (get_images_well_formed env cloudinary req w resp []
              Hresp Hnull Hpage (Forall_nil_2 _)) as (images & -> & Hsum).
  by apply Forall2_nil_inv_l in Hsum as ->.
Qed.

Lemma images_of_falsy_resources_witness :
  let w := idle ∅ in
  let zero := obj [("resources", JNumber 0)] in
  let text := JString "<html>Bad gateway</html>" in
  (resolving zero (ApiResources (resources_options ∅)) (fresh_res w) = Normal zero ∧
   nullish zero = false ∧ truthy (own_prop zero "resources") = false ∧
   response (serve ∅ (resolving zero) GetImages without_image w)
     = Some (200, JArray [])) ∧
  (resolving text (ApiResources (resources_options ∅)) (fresh_res w) = Normal text ∧
   nullish text = false ∧ truthy (own_prop text "resources") = false ∧
   response (serve ∅ (resolving text) GetImages without_image w)
     = Some (200, JArray [])).
Proof.
  cbv zeta. split.
  - split; [reflexivity|]. split; [reflexivity|]. split; [reflexivity|].
    apply (images_of_falsy_resources ∅ _ without_image (idle ∅)
             (obj [("resources", JNumber 0)])); reflexivity.
  - split; [reflexivity|]. split; [reflexivity|]. split; [reflexivity|].
    apply (images_of_falsy_resources ∅ _ without_image (idle ∅)
             (JString "<html>Bad gateway</html>")); reflexivity.
Defined.

(** ** The configured folder *)

(** X11. [FOLDER] is never the empty string: a [FOLDER_NAME] that is set
    and not empty is taken as it is, an empty one gives the default like an
    unset one. So the prefix of the list call is never the bare ["/"]. *)
Theorem folder_is_never_empty env :
  FOLDER env ≠ "" ∧
  (∀ name, env !! "FOLDER_NAME" = Some name → name ≠ "" → FOLDER env = name) ∧
  FOLDER (<["FOLDER_NAME" := ""]> env) = "portfolio-gallery" ∧
  own_prop (resources_options env) "prefix" ≠ JString "/".
Proof.
  unfold FOLDER, env_or.
  split; [|split; [|split]].
  - destruct (env !! "FOLDER_NAME") as [s|]; [|done].
    destruct (String.eqb s "") eqn:Hs; [done|]. by apply String.eqb_neq in Hs.
  - intros name -> Hname. by apply String.eqb_neq in Hname as ->.
  - by rewrite lookup_insert_eq.
  - unfold resources_options, obj, FOLDER, env_or. simpl. simplify_map_eq.
    destruct (env !! "FOLDER_NAME") as [s|]; [|done].
    destruct (String.eqb s "") eqn:Hs; [done|].
    apply String.eqb_neq in Hs. destruct s; [done|]. simpl.
    intros [= _ H]. by destruct s.
Qed.

(** ** Remote calls *)

(** X12. A request sends its handler's remote call once and nothing else,
    whether the call resolves, is rejected, or resolves with a value the
    handler cannot read: there is no retry and no follow-up call. An
    upload without a file sends none. *)
Theorem one_remote_call_per_request env cloudinary route req w :
  calls (serve env cloudinary route req w) =
    calls w ++ match remote_call env route req with
               | Some c => [c]
               | None => []
               end.
Proof.
  destruct (serve_outcome env cloudinary route req w)
    as [(-> & Hfile & ->)
       |(c & on_disk & -> & _ & [(v & b & _ & ->)|(e & _ & ->)])].
  - simpl. rewrite Hfile. by rewrite app_nil_r.
  - reflexivity.
  - by rewrite on_error_calls.
Qed.
